(** * E-commerce product management: pricing, cart and order logic

    A shallow embedding of [E_Product_Management.cpp]: the product
    hierarchy ([Product], [Electronics], [Clothing], [Grocery]) with the
    [IDiscount] interface, [ShoppingCart], and [Order] with its static
    identifier counter.

    Conventions of the embedding:
    - [double] is IEEE binary64, modelled by Rocq's primitive [float];
      the literals [0.90], [0.70], [0.95] denote the nearest binary64
      value, as they do for the C++ compiler;
    - [uid_t] ([unsigned long long]) and [size_t] are 64-bit unsigned
      integers, modelled by [Z] with the wrap-around written out;
    - [shared_ptr<Product>] is an optional location ([None] is the null
      pointer); the objects live in a store [loc -> Product.t].  [Product]
      has no mutator and a [shared_ptr] keeps its object alive, so the
      store is constant during a run;
    - every floating-point operation is rounded on its own (no fused
      multiply-add);
    - a member function that mutates [*this] takes the old object state
      and returns the new one. *)

From Stdlib Require Import ZArith String Floats.
From stdpp Require Import gmap list fin_maps.

Set Warnings "-inexact-float".
Open Scope string_scope.
Open Scope Z_scope.

(** ** Machine integers *)

Definition is_uid (z : Z) : Prop := 0 <= z < 2 ^ 64.
Definition is_size (z : Z) : Prop := 0 <= z < 2 ^ 64.

(** Arithmetic on [size_t] and [uid_t] is modulo [2^64]. *)
Definition wrap64 (z : Z) : Z := z mod 2 ^ 64.

(** The usual arithmetic conversion [size_t -> double] (round to nearest,
    ties to even). *)
Definition size_to_double (q : Z) : float :=
  SF2Prim (binary_normalize prec emax q 0 false).

(** ** Products *)

(** The dynamic type of a product object, with the data members the
    derived class adds. *)
Inductive ProductKind :=
| Plain
| Electronics (warranty_months : Z)
| Clothing (size_label : string) (on_clearance : bool)
| Grocery (expiry_date : string).

Module Product.
Record t := mk {
  id : Z;
  name : string;
  price : float;
  sku : string;
  kind : ProductKind
}.

Definition getId (p : t) : Z := id p.
Definition getName (p : t) : string := name p.
Definition getBasePrice (p : t) : float := price p.
Definition getSku (p : t) : string := sku p.
End Product.

(** Constructors of the four classes. *)
Definition new_Product (id : Z) (name : string) (price : float) (sku : string)
  : Product.t :=
  Product.mk id name price sku Plain.

Definition new_Electronics (id : Z) (name : string) (price : float)
    (sku : string) (warranty_months : Z) : Product.t :=
  Product.mk id name price sku (Electronics warranty_months).

Definition new_Clothing (id : Z) (name : string) (price : float) (sku : string)
    (size_label : string) (clearance : bool) : Product.t :=
  Product.mk id name price sku (Clothing size_label clearance).

Definition new_Grocery (id : Z) (name : string) (price : float) (sku : string)
    (expiry : string) : Product.t :=
  Product.mk id name price sku (Grocery expiry).

(** [Electronics::applyDiscount]: a flat 10% discount. *)
Definition Electronics_applyDiscount (price : float) : float :=
  (price * 0.90)%float.

(** [Clothing::applyDiscount]: 30% off on clearance, otherwise 5% off. *)
Definition Clothing_applyDiscount (on_clearance : bool) (price : float) : float :=
  if on_clearance then (price * 0.70)%float else (price * 0.95)%float.

(** [dynamic_cast<const IDiscount*>]: the object's [applyDiscount] when its
    class derives from [IDiscount], nothing otherwise. *)
Definition as_IDiscount (p : Product.t) : option (float -> float) :=
  match Product.kind p with
  | Electronics _ => Some Electronics_applyDiscount
  | Clothing _ on_clearance => Some (Clothing_applyDiscount on_clearance)
  | Plain | Grocery _ => None
  end.

(** The virtual [finalPrice]: [Product::finalPrice] unless overridden. *)
Definition finalPrice (p : Product.t) : float :=
  match Product.kind p with
  | Electronics _ => Electronics_applyDiscount (Product.price p)
  | Clothing _ on_clearance =>
      Clothing_applyDiscount on_clearance (Product.price p)
  | Plain | Grocery _ => Product.price p
  end.

(** [getType]. *)
Definition getType (p : Product.t) : string :=
  match Product.kind p with
  | Plain => "Product"
  | Electronics _ => "Electronics"
  | Clothing _ _ => "Clothing"
  | Grocery _ => "Grocery"
  end.

(** ** Pointers and the object store *)

Definition loc := positive.
Definition ptr := option loc.
Definition Store := loc -> Product.t.

(** An entry of the item map: [pair<shared_ptr<Product>, size_t>]. *)
Abbreviation entry := (ptr * Z)%type.

(** [unordered_map<uid_t, pair<shared_ptr<Product>, size_t>>]. *)
Abbreviation ItemMap := (gmap Z entry).

(** ** ShoppingCart

    The class has the single data member [items]; a cart state is that
    map. *)

Module ShoppingCart.
Section WithStore.
Variable heap : Store.

Definition addProduct (p : ptr) (qty : Z) (items : ItemMap) : ItemMap :=
  match p with
  | None => items
  | Some l =>
      if qty =? 0 then items
      else
        let k := Product.getId (heap l) in
        match items !! k with
        | None => <[k := (p, qty)]> items
        | Some (p0, q0) => <[k := (p0, wrap64 (q0 + qty))]> items
        end
  end.

Definition removeProduct (id qty : Z) (items : ItemMap) : ItemMap :=
  match items !! id with
  | None => items
  | Some (p0, q0) =>
      if q0 <=? qty then delete id items
      else <[id := (p0, wrap64 (q0 - qty))]> items
  end.

(** [operator+=] and [operator+]; the latter works on a copy of its
    left operand and returns it. *)
Definition plus_assign (p : ptr) (items : ItemMap) : ItemMap :=
  addProduct p 1 items.

Definition plus (cart : ItemMap) (p : ptr) : ItemMap :=
  addProduct p 1 cart.

Definition clear (items : ItemMap) : ItemMap := ∅.

Definition empty (items : ItemMap) : bool := bool_decide (items = ∅).

Definition itemsSnapshot (items : ItemMap) : ItemMap := items.

(** One iteration of the loop of [total]: [None] stands for the
    undefined behaviour of calling [getBasePrice] through a null
    pointer. *)
Definition total_step (sum : float) (kv : Z * entry) : option float :=
  match kv.2.1 with
  | None => None
  | Some l =>
      let p := heap l in
      let qty := kv.2.2 in
      match as_IDiscount p with
      | Some applyDiscount =>
          Some (sum + applyDiscount (Product.getBasePrice p)
                      * size_to_double qty)%float
      | None =>
          Some (sum + Product.getBasePrice p * size_to_double qty)%float
      end
  end.

(** The loop of [total] over the entries in the order the map's
    iterator yields them. *)
Definition total_over (es : list (Z * entry)) : option float :=
  foldl (fun acc kv => acc ≫= fun sum => total_step sum kv) (Some 0%float) es.

(** The iteration order of an [unordered_map] is unspecified: any
    enumeration of the entries may be the one the loop sees.  [total]
    runs the loop on the enumeration [map_to_list]. *)
Definition enumerates (es : list (Z * entry)) (items : ItemMap) : Prop :=
  es ≡ₚ map_to_list items.

Definition total (items : ItemMap) : option float :=
  total_over (map_to_list items).

(** *** Sequences of cart operations *)

Inductive CartOp :=
| OpAdd (p : ptr) (qty : Z)
| OpRemove (id qty : Z)
| OpClear
| OpPlusAssign (p : ptr)
| OpPlus (p : ptr).

(** The arguments fit their C++ types. *)
Definition well_typed (op : CartOp) : Prop :=
  match op with
  | OpAdd _ qty => is_size qty
  | OpRemove id qty => is_uid id /\ is_size qty
  | OpClear | OpPlusAssign _ | OpPlus _ => True
  end.

Definition exec (op : CartOp) (items : ItemMap) : ItemMap :=
  match op with
  | OpAdd p qty => addProduct p qty items
  | OpRemove id qty => removeProduct id qty items
  | OpClear => clear items
  | OpPlusAssign p => plus_assign p items
  | OpPlus p => plus items p
  end.

Definition run (ops : list CartOp) (items : ItemMap) : ItemMap :=
  foldl (fun c op => exec op c) items ops.

(** The states a cart can be in: it is default-constructed empty and
    changes only through its member functions and operators. *)
Inductive reachable : ItemMap -> Prop :=
| reachable_empty : reachable ∅
| reachable_exec op items :
    reachable items -> well_typed op -> reachable (exec op items).
End WithStore.
End ShoppingCart.

(** ** Order *)

Inductive OrderStatus := Created | Paid | Shipped | Cancelled.

Module Order.
Record t := mk {
  order_id : Z;
  items : ItemMap;
  status : OrderStatus;
  created_at : Z
}.

Definition getId (o : t) : Z := order_id o.
Definition pay (o : t) : t := mk (order_id o) (items o) Paid (created_at o).
Definition ship (o : t) : t := mk (order_id o) (items o) Shipped (created_at o).
Definition cancel (o : t) : t :=
  mk (order_id o) (items o) Cancelled (created_at o).

Definition statusString (o : t) : string :=
  match status o with
  | Created => "Created"
  | Paid => "Paid"
  | Shipped => "Shipped"
  | Cancelled => "Cancelled"
  end.

(** [Order::total]: the loop of [ShoppingCart::total] written out a
    second time, over the order's own map. *)
Definition total_step (heap : Store) (sum : float) (kv : Z * entry)
  : option float :=
  match kv.2.1 with
  | None => None
  | Some l =>
      let p := heap l in
      let qty := kv.2.2 in
      match as_IDiscount p with
      | Some applyDiscount =>
          Some (sum + applyDiscount (Product.getBasePrice p)
                      * size_to_double qty)%float
      | None =>
          Some (sum + Product.getBasePrice p * size_to_double qty)%float
      end
  end.

Definition total_over (heap : Store) (es : list (Z * entry)) : option float :=
  foldl (fun acc kv => acc ≫= fun sum => total_step heap sum kv)
        (Some 0%float) es.

Definition total (heap : Store) (o : t) : option float :=
  total_over heap (map_to_list (items o)).
End Order.

(** [atomic<uid_t> Order::nextOrderId{0}]. *)
Definition nextOrderId_init : Z := 0.

(** [++nextOrderId] on a [uid_t]. *)
Definition pre_increment (counter : Z) : Z := wrap64 (counter + 1).

(** The constructor [Order(const ShoppingCart&)]: [now] is the value
    [time(nullptr)] returns; the result is the new order and the new
    value of the static counter. *)
Definition new_Order (cart : ItemMap) (now : Z) (nextOrderId : Z)
  : Order.t * Z :=
  let n := pre_increment nextOrderId in
  (Order.mk n (ShoppingCart.itemsSnapshot cart) Created now, n).

(** ** A run of the program

    The objects of a run: a cart, the orders constructed so far (oldest
    first) and the static counter.  Cart operations act on the cart
    object only; constructing an order reads the cart and the counter. *)

Record World := mkWorld {
  w_cart : ItemMap;
  w_orders : list Order.t;
  w_nextOrderId : Z
}.

Definition initial_world : World := mkWorld ∅ [] nextOrderId_init.

Inductive Event :=
| CartEvent (op : ShoppingCart.CartOp)
| PlaceOrder (now : Z).

Definition step (heap : Store) (ev : Event) (w : World) : World :=
  match ev with
  | CartEvent op =>
      mkWorld (ShoppingCart.exec heap op (w_cart w)) (w_orders w)
              (w_nextOrderId w)
  | PlaceOrder now =>
      let '(o, n) := new_Order (w_cart w) now (w_nextOrderId w) in
      mkWorld (w_cart w) (w_orders w ++ [o]) n
  end.

Definition steps (heap : Store) (evs : list Event) (w : World) : World :=
  foldl (fun w ev => step heap ev w) w evs.

(** The identifier the [n]-th order of a run receives: the counter after
    [n] pre-increments from its initial value. *)
Definition nth_order_id (n : N) : Z :=
  N.iter n pre_increment nextOrderId_init.

(** ** The objects of [main] *)

Definition e1 : Product.t :=
  new_Electronics 1 "Smartphone" 699.99 "ELEC-100" 12.
Definition c1 : Product.t :=
  new_Clothing 2 "Leather Jacket" 250.00 "CLOTH-200" "L" false.
Definition g1 : Product.t :=
  new_Grocery 3 "Organic Milk" 3.49 "GROC-300" "2025-12-01".

(** A store holding [e1], [c1], [g1] at locations 1, 2, 3. *)
Definition main_heap : Store :=
  fun l => match l with 1%positive => e1 | 2%positive => c1 | _ => g1 end.

(** [cart += e1; cart = cart + c1; cart += g1]. *)
Definition main_cart : ItemMap :=
  ShoppingCart.run main_heap
    [ShoppingCart.OpPlusAssign (Some 1%positive);
     ShoppingCart.OpPlus (Some 2%positive);
     ShoppingCart.OpPlusAssign (Some 3%positive)] ∅.

(** Two distinct product objects that carry the same identifier 7: a
    laptop at location 1 and an apple at location 2 (every other
    location holds the laptop as well). *)
Definition laptop : Product.t := new_Electronics 7 "Laptop" 1000 "ELEC-7" 24.
Definition apple : Product.t := new_Grocery 7 "Apple" 2 "GROC-7" "2025-12-24".

Definition twin_heap : Store :=
  fun l => match l with 2%positive => apple | _ => laptop end.

(** ** The spec's reading of a total

    "The sum, over all held entries, of (the discount rule applied to the
    base price, or the base price if the product has no discount rule)
    times the quantity."  The entries are taken in the order the loop
    visits them. *)

Definition held_entries (heap : Store) (es : list (Z * entry))
  : list (Product.t * Z) :=
  omap (fun kv => l ← kv.2.1; Some (heap l, kv.2.2)) es.

Definition discounted_or_base (p : Product.t) : float :=
  match as_IDiscount p with
  | Some rule => rule (Product.getBasePrice p)
  | None => Product.getBasePrice p
  end.

Definition spec_total (held : list (Product.t * Z)) : float :=
  foldl (fun sum e => (sum + discounted_or_base e.1 * size_to_double e.2)%float)
        0%float held.

(** The class invariant of [ShoppingCart] that every run keeps: stored
    quantities are [size_t] values and every stored pointer is non-null
    and points to a product whose identifier is the entry's key. *)
Definition entry_wf (heap : Store) (k : Z) (e : entry) : Prop :=
  is_size e.2 /\ exists l, e.1 = Some l /\ Product.getId (heap l) = k.

Definition cart_wf (heap : Store) (items : ItemMap) : Prop :=
  map_Forall (entry_wf heap) items.

(** Runs in which no [addProduct] overflows the quantity it increments. *)
Definition add_fits (heap : Store) (p : ptr) (qty : Z) (items : ItemMap)
  : Prop :=
  forall l p0 q0,
    p = Some l -> items !! Product.getId (heap l) = Some (p0, q0) ->
    q0 + qty < 2 ^ 64.

Definition op_fits (heap : Store) (op : ShoppingCart.CartOp) (items : ItemMap)
  : Prop :=
  match op with
  | ShoppingCart.OpAdd p qty => add_fits heap p qty items
  | ShoppingCart.OpPlusAssign p | ShoppingCart.OpPlus p =>
      add_fits heap p 1 items
  | ShoppingCart.OpRemove _ _ | ShoppingCart.OpClear => True
  end.

Inductive reachable_fitting (heap : Store) : ItemMap -> Prop :=
| fitting_empty : reachable_fitting heap ∅
| fitting_exec op items :
    reachable_fitting heap items ->
    ShoppingCart.well_typed op -> op_fits heap op items ->
    reachable_fitting heap (ShoppingCart.exec heap op items).

(** ** GenericCatalog<T>

    The class has the single data member [items], a
    [vector<shared_ptr<T>>]; a catalog state is that sequence.  [size()]
    is the length of the vector, which never exceeds what a [size_t]
    holds. *)

Module GenericCatalog.
Definition t := list ptr.

Definition add (item : ptr) (items : t) : t := (items ++ [item])%list.

Definition getItems (items : t) : list ptr := items.

Definition size (items : t) : Z := Z.of_nat (length items).
End GenericCatalog.

(** ** Calls of the status member functions of an order *)

Inductive StatusCall := CallPay | CallShip | CallCancel.

Definition call (c : StatusCall) (o : Order.t) : Order.t :=
  match c with
  | CallPay => Order.pay o
  | CallShip => Order.ship o
  | CallCancel => Order.cancel o
  end.

Definition calls (cs : list StatusCall) (o : Order.t) : Order.t :=
  foldl (fun o c => call c o) o cs.

(** ** What a cart operation does to the entry of its identifier

    [addProduct] with a non-null product and a non-zero quantity, and
    [removeProduct], read and write one entry of the map; these are the
    two functions from the old entry (or none) to the new one. *)

Definition add_effect (l : loc) (qty : Z) (old : option entry) : option entry :=
  match old with
  | None => Some (Some l, qty)
  | Some (p0, q0) => Some (p0, wrap64 (q0 + qty))
  end.

Definition remove_effect (qty : Z) (old : option entry) : option entry :=
  match old with
  | None => None
  | Some (p0, q0) =>
      if q0 <=? qty then None else Some (p0, wrap64 (q0 - qty))
  end.

(** * Theorems *)

(** ** Pricing rules *)

(** C5: an Electronics product constructed with base price [P] has
    [finalPrice() = P * 0.90], whatever its warranty duration (and
    whatever its identifier, name and SKU). *)
Theorem electronics_finalPrice :
  forall id name P sku warranty_months,
    finalPrice (new_Electronics id name P sku warranty_months)
    = (P * 0.90)%float.
Proof. reflexivity. Qed.

(** C6: a Clothing product constructed with base price [P] has
    [finalPrice() = P * 0.70] when the clearance flag is set and
    [P * 0.95] when it is not. *)
Theorem clothing_finalPrice :
  forall id name P sku size_label,
    finalPrice (new_Clothing id name P sku size_label true) = (P * 0.70)%float
    /\ finalPrice (new_Clothing id name P sku size_label false)
       = (P * 0.95)%float.
Proof. split; reflexivity. Qed.

(** C7: a Grocery product constructed with base price [P] has
    [finalPrice() = P]; it does not implement [IDiscount], so an
    iteration of the total loops of the cart and of the order over an
    entry that points to it adds its base price times the quantity. *)
Theorem grocery_finalPrice :
  forall id name P sku expiry,
    let g := new_Grocery id name P sku expiry in
    finalPrice g = P
    /\ as_IDiscount g = None
    /\ forall l k qty sum,
         ShoppingCart.total_step (fun _ => g) sum (k, (Some l, qty))
         = Some (sum + P * size_to_double qty)%float
         /\ Order.total_step (fun _ => g) sum (k, (Some l, qty))
            = Some (sum + P * size_to_double qty)%float.
Proof. intros id name P sku expiry g. repeat split. Qed.

(** The prices [main] prints for its three products. *)
Example main_final_prices :
  finalPrice e1 = 629.99099999999999%float
  /\ finalPrice c1 = 237.5%float
  /\ finalPrice g1 = 3.49%float.
Proof. repeat split; vm_compute; reflexivity. Qed.

(** ** Machine arithmetic *)

Lemma wrap64_small z : 0 <= z < 2 ^ 64 -> wrap64 z = z.
Proof. intros Hz. unfold wrap64. apply Z.mod_small. exact Hz. Qed.

Lemma wrap64_is_size z : is_size (wrap64 z).
Proof. unfold is_size, wrap64. apply Z.mod_pos_bound. lia. Qed.

(** ** The cart operations, case by case *)

Section CartLemmas.
Variable heap : Store.

Lemma addProduct_null qty (items : ItemMap) :
  ShoppingCart.addProduct heap None qty items = items.
Proof. reflexivity. Qed.

Lemma addProduct_zero p (items : ItemMap) :
  ShoppingCart.addProduct heap p 0 items = items.
Proof. destruct p; reflexivity. Qed.

Lemma addProduct_fresh l qty (items : ItemMap) :
  qty <> 0 ->
  items !! Product.getId (heap l) = None ->
  ShoppingCart.addProduct heap (Some l) qty items
  = <[Product.getId (heap l) := (Some l, qty)]> items.
Proof.
  intros Hq Hk. unfold ShoppingCart.addProduct.
  destruct (Z.eqb_spec qty 0) as [->|_]; [done|]. cbv zeta. by rewrite Hk.
Qed.

Lemma addProduct_held l qty p0 q0 (items : ItemMap) :
  qty <> 0 ->
  items !! Product.getId (heap l) = Some (p0, q0) ->
  ShoppingCart.addProduct heap (Some l) qty items
  = <[Product.getId (heap l) := (p0, wrap64 (q0 + qty))]> items.
Proof.
  intros Hq Hk. unfold ShoppingCart.addProduct.
  destruct (Z.eqb_spec qty 0) as [->|_]; [done|]. cbv zeta. by rewrite Hk.
Qed.

(** When the sum fits in a [size_t] the stored quantity grows by
    exactly [qty]. *)
Lemma addProduct_held_fits l qty p0 q0 (items : ItemMap) :
  qty <> 0 -> 0 <= q0 + qty < 2 ^ 64 ->
  items !! Product.getId (heap l) = Some (p0, q0) ->
  ShoppingCart.addProduct heap (Some l) qty items
  = <[Product.getId (heap l) := (p0, q0 + qty)]> items.
Proof.
  intros Hq Hfit Hk. rewrite (addProduct_held _ _ _ _ _ Hq Hk).
  by rewrite wrap64_small.
Qed.

Lemma removeProduct_absent id qty (items : ItemMap) :
  items !! id = None -> ShoppingCart.removeProduct id qty items = items.
Proof. intros Hk. unfold ShoppingCart.removeProduct. by rewrite Hk. Qed.

Lemma removeProduct_all id qty p0 q0 (items : ItemMap) :
  items !! id = Some (p0, q0) -> q0 <= qty ->
  ShoppingCart.removeProduct id qty items = delete id items.
Proof.
  intros Hk Hq. unfold ShoppingCart.removeProduct. rewrite Hk.
  destruct (Z.leb_spec q0 qty); [done | lia].
Qed.

Lemma removeProduct_some id qty p0 q0 (items : ItemMap) :
  items !! id = Some (p0, q0) -> qty < q0 ->
  ShoppingCart.removeProduct id qty items
  = <[id := (p0, wrap64 (q0 - qty))]> items.
Proof.
  intros Hk Hq. unfold ShoppingCart.removeProduct. rewrite Hk.
  destruct (Z.leb_spec q0 qty); [lia | done].
Qed.

(** *** The invariant every run keeps *)

Lemma cart_wf_empty : cart_wf heap ∅.
Proof. apply map_Forall_empty. Qed.

Lemma cart_wf_addProduct p qty (items : ItemMap) :
  is_size qty -> cart_wf heap items ->
  cart_wf heap (ShoppingCart.addProduct heap p qty items).
Proof.
  intros Hq Hwf. destruct p as [l|]; [|done].
  destruct (decide (qty = 0)) as [->|Hne]; [by rewrite addProduct_zero|].
  destruct (items !! Product.getId (heap l)) as [[p0 q0]|] eqn:Hk.
  - rewrite (addProduct_held _ _ _ _ _ Hne Hk).
    apply map_Forall_insert_2; [|done].
    destruct (Hwf _ _ Hk) as [_ Hp]. split; [apply wrap64_is_size | done].
  - rewrite (addProduct_fresh _ _ _ Hne Hk).
    apply map_Forall_insert_2; [|done]. split; [done | by exists l].
Qed.

Lemma cart_wf_removeProduct id qty (items : ItemMap) :
  cart_wf heap items -> cart_wf heap (ShoppingCart.removeProduct id qty items).
Proof.
  intros Hwf. unfold ShoppingCart.removeProduct.
  destruct (items !! id) as [[p0 q0]|] eqn:Hk; [|done].
  destruct (q0 <=? qty).
  - by apply map_Forall_delete.
  - apply map_Forall_insert_2; [|done].
    destruct (Hwf _ _ Hk) as [_ Hp]. split; [apply wrap64_is_size | done].
Qed.

Lemma cart_wf_exec op (items : ItemMap) :
  ShoppingCart.well_typed op -> cart_wf heap items ->
  cart_wf heap (ShoppingCart.exec heap op items).
Proof.
  destruct op as [p qty|id qty| |p|p]; simpl; intros Hty Hwf.
  - by apply cart_wf_addProduct.
  - by apply cart_wf_removeProduct.
  - apply cart_wf_empty.
  - apply cart_wf_addProduct; [unfold is_size; lia | done].
  - apply cart_wf_addProduct; [unfold is_size; lia | done].
Qed.

Lemma reachable_cart_wf (items : ItemMap) :
  ShoppingCart.reachable heap items -> cart_wf heap items.
Proof.
  induction 1 as [|op items _ IH Hty]; [apply cart_wf_empty|].
  by apply cart_wf_exec.
Qed.

Lemma reachable_run ops (items : ItemMap) :
  Forall ShoppingCart.well_typed ops ->
  ShoppingCart.reachable heap items ->
  ShoppingCart.reachable heap (ShoppingCart.run heap ops items).
Proof.
  intros Hops. revert items.
  induction Hops as [|op ops Hty _ IH]; intros items Hr; [done|].
  simpl. apply IH. by constructor.
Qed.
End CartLemmas.

(** ** The total loop *)

Lemma discounted_or_base_finalPrice p : discounted_or_base p = finalPrice p.
Proof.
  unfold discounted_or_base, finalPrice, as_IDiscount.
  destruct (Product.kind p); reflexivity.
Qed.

Section TotalLemmas.
Variable heap : Store.

Lemma total_step_nonnull sum k l qty :
  ShoppingCart.total_step heap sum (k, (Some l, qty))
  = Some (sum + discounted_or_base (heap l) * size_to_double qty)%float.
Proof.
  unfold ShoppingCart.total_step, discounted_or_base. simpl.
  destruct (as_IDiscount (heap l)); reflexivity.
Qed.

(** The two copies of the loop body agree. *)
Lemma Order_total_step_eq sum kv :
  Order.total_step heap sum kv = ShoppingCart.total_step heap sum kv.
Proof. reflexivity. Qed.

Lemma Order_total_over_eq es :
  Order.total_over heap es = ShoppingCart.total_over heap es.
Proof. reflexivity. Qed.

(** The loop started from any partial sum. *)
Lemma total_loop_from (es : list (Z * entry)) (a : float) :
  Forall (fun kv => is_Some kv.2.1) es ->
  foldl (fun acc kv => acc ≫= fun sum => ShoppingCart.total_step heap sum kv)
        (Some a) es
  = Some (foldl (fun sum e =>
                   (sum + discounted_or_base e.1 * size_to_double e.2)%float)
                a (held_entries heap es))
  /\ length (held_entries heap es) = length es.
Proof.
  intros Hes. revert a.
  induction Hes as [|[k [p qty]] es [l Hl] _ IH]; intros a; [done|].
  simpl in Hl. subst p. simpl.
  rewrite total_step_nonnull.
  destruct (IH (a + discounted_or_base (heap l) * size_to_double qty)%float)
    as [-> ->].
  done.
Qed.

Lemma enumeration_nonnull (items : ItemMap) es :
  cart_wf heap items -> ShoppingCart.enumerates es items ->
  Forall (fun kv => is_Some kv.2.1) es.
Proof.
  intros Hwf Hes. apply Forall_forall. intros [k e] Hin.
  unfold ShoppingCart.enumerates in Hes. rewrite Hes in Hin.
  apply elem_of_map_to_list in Hin.
  destruct (Hwf _ _ Hin) as [_ (l & Hl & _)]. simpl. by exists l.
Qed.
End TotalLemmas.

(** C1: in every state of a cart, [total()] returns the sum, over the
    held entries in the order the loop visits them, of the discount rule
    applied to the base price (the base price when the product has no
    discount rule) times the quantity; no entry is skipped; that price is
    the product's [finalPrice()]; and the total of the empty cart is 0. *)
Theorem cart_total_is_sum :
  forall (heap : Store) (items : ItemMap) (es : list (Z * entry)),
    ShoppingCart.reachable heap items ->
    ShoppingCart.enumerates es items ->
    ShoppingCart.total_over heap es = Some (spec_total (held_entries heap es))
    /\ length (held_entries heap es) = size items
    /\ (forall p, discounted_or_base p = finalPrice p)
    /\ ShoppingCart.total heap ∅ = Some 0%float.
Proof.
  intros heap items es Hreach Hes.
  pose proof (enumeration_nonnull heap items es
                (reachable_cart_wf heap items Hreach) Hes) as Hnn.
  destruct (total_loop_from heap es 0%float Hnn) as [Hsum Hlen].
  repeat split.
  - exact Hsum.
  - rewrite Hlen. unfold ShoppingCart.enumerates in Hes. rewrite Hes.
    apply length_map_to_list.
  - apply discounted_or_base_finalPrice.
Qed.

(** The cart of [main]: its total is [699.99*0.90 + 250.00*0.95 + 3.49]. *)
Lemma cart_total_is_sum_witness :
  ShoppingCart.total_over main_heap (map_to_list main_cart)
  = Some (spec_total (held_entries main_heap (map_to_list main_cart)))
  /\ spec_total (held_entries main_heap (map_to_list main_cart))
     = 870.98099999999999%float.
Proof.
  split; [|vm_compute; reflexivity].
  apply (cart_total_is_sum main_heap main_cart (map_to_list main_cart)).
  - unfold main_cart. apply reachable_run; [|constructor].
    repeat constructor.
  - unfold ShoppingCart.enumerates. reflexivity.
Defined.

(** ** Orders *)

Section WorldLemmas.
Variable heap : Store.

(** Cart operations leave the orders and the counter alone. *)
Lemma steps_cart_events ops w :
  steps heap (map CartEvent ops) w
  = mkWorld (ShoppingCart.run heap ops (w_cart w)) (w_orders w)
            (w_nextOrderId w).
Proof.
  revert w. induction ops as [|op ops IH]; intros w; [by destruct w|].
  change (steps heap (map CartEvent (op :: ops)) w)
    with (steps heap (map CartEvent ops) (step heap (CartEvent op) w)).
  rewrite IH. reflexivity.
Qed.

Lemma steps_snoc evs ev w :
  steps heap (evs ++ [ev]) w = step heap ev (steps heap evs w).
Proof. unfold steps. by rewrite foldl_app. Qed.
End WorldLemmas.

(** C2: an order constructed from a cart holds the cart's item map of
    that instant.  After any sequence of later cart mutations
    ([addProduct], [removeProduct], [clear], [+=], [+]) the cart is the
    mutated one, while the orders are the same objects as before: the
    order's item map is still the cart's map of the instant of its
    construction and [Order::total()] returns what it returned before. *)
Theorem order_snapshot_isolation :
  forall (heap : Store) (w : World) (now : Z)
         (ops : list ShoppingCart.CartOp),
    let w1 := step heap (PlaceOrder now) w in
    let w2 := steps heap (map CartEvent ops) w1 in
    exists o : Order.t,
      last (w_orders w1) = Some o
      /\ Order.items o = w_cart w
      /\ w_cart w2 = ShoppingCart.run heap ops (w_cart w)
      /\ w_orders w2 = w_orders w1
      /\ exists o' : Order.t,
           last (w_orders w2) = Some o'
           /\ Order.items o' = w_cart w
           /\ Order.total heap o' = Order.total heap o.
Proof.
  intros heap w now ops w1 w2.
  exists (new_Order (w_cart w) now (w_nextOrderId w)).1.
  subst w2. rewrite steps_cart_events. subst w1.
  cbn [step new_Order w_orders w_cart fst].
  rewrite last_snoc. repeat split. eexists. repeat split.
Qed.

(** In [main]: removing the jacket from the cart and clearing the cart
    leave the order's total at 870.981 while the cart's total drops
    to 0. *)
Example main_order_keeps_total :
  let w1 := step main_heap (PlaceOrder 0) (mkWorld main_cart [] nextOrderId_init) in
  let w2 := steps main_heap
              [CartEvent (ShoppingCart.OpRemove 2 1);
               CartEvent (ShoppingCart.OpRemove 999 1);
               CartEvent ShoppingCart.OpClear] w1 in
  (Order.total main_heap <$> w_orders w2) = [Some 870.98099999999999%float]
  /\ (Order.getId <$> w_orders w2) = [1]
  /\ ShoppingCart.total main_heap (w_cart w2) = Some 0%float
  /\ ShoppingCart.empty (w_cart w2) = true.
Proof. vm_compute. repeat split. Qed.

(** *** Order identifiers *)

Lemma nth_order_id_mod (n : N) : nth_order_id n = Z.of_N n mod 2 ^ 64.
Proof.
  unfold nth_order_id. induction n as [|n IH] using N.peano_ind; [done|].
  rewrite N.iter_succ, IH. unfold pre_increment, wrap64.
  rewrite N2Z.inj_succ, Zplus_mod_idemp_l. reflexivity.
Qed.

Lemma nth_order_id_small (n : N) :
  Z.of_N n < 2 ^ 64 -> nth_order_id n = Z.of_N n.
Proof. intros Hn. rewrite nth_order_id_mod. apply Z.mod_small. lia. Qed.

(** In a run from the initial state the counter holds the identifier of
    the newest order, and the order constructed as number [i + 1] holds
    the counter value after [i + 1] increments. *)
Lemma nth_order_id_succ (n : N) :
  nth_order_id (N.succ n) = pre_increment (nth_order_id n).
Proof. unfold nth_order_id. apply N.iter_succ. Qed.

Lemma run_order_ids (heap : Store) (evs : list Event) :
  let w := steps heap evs initial_world in
  w_nextOrderId w = nth_order_id (N.of_nat (length (w_orders w)))
  /\ forall (i : nat) o,
       w_orders w !! i = Some o ->
       Order.order_id o = nth_order_id (N.of_nat (S i)).
Proof.
  induction evs as [|ev evs IH] using rev_ind; [done|].
  cbv zeta in *. rewrite steps_snoc.
  destruct IH as [IHc IHo]. destruct ev as [op|now]; [done|].
  cbn [step new_Order w_orders w_nextOrderId].
  rewrite length_app, Nat.add_comm. cbn [length Nat.add].
  rewrite Nat2N.inj_succ, nth_order_id_succ, <- IHc. split; [done|].
  intros i o Hi. apply lookup_snoc_Some in Hi as [[_ Hi]|[Hlen Ho]].
  - by apply IHo.
  - subst o i. cbn [Order.order_id].
    by rewrite Nat2N.inj_succ, nth_order_id_succ, <- IHc.
Qed.

(** C8 as stated fails once the 64-bit counter wraps: the order
    constructed as number [2^64] receives identifier 0, not [2^64], and
    the next one receives identifier 1 again, the identifier of the
    first order. *)
Lemma order_id_wraps :
  nth_order_id (2 ^ 64) = 0
  /\ nth_order_id (2 ^ 64) <> Z.of_N (2 ^ 64)
  /\ nth_order_id (2 ^ 64 + 1) = nth_order_id 1.
Proof.
  rewrite !nth_order_id_mod. repeat split. vm_compute. discriminate.
Qed.

(** C8, amended: the counter starts at 0 and is pre-incremented, so in a
    run that constructs fewer than [2^64] orders the [n]-th order
    constructed receives identifier [n]; identifiers are then strictly
    increasing in construction order and no two orders share one. *)
Theorem order_ids_sequential :
  forall (heap : Store) (evs : list Event),
    let w := steps heap evs initial_world in
    Z.of_nat (length (w_orders w)) < 2 ^ 64 ->
    nextOrderId_init = 0
    /\ (forall (i : nat) o,
          w_orders w !! i = Some o -> Order.getId o = Z.of_nat i + 1)
    /\ (forall (i j : nat) oi oj,
          w_orders w !! i = Some oi -> w_orders w !! j = Some oj ->
          (i < j)%nat -> Order.getId oi < Order.getId oj)
    /\ (forall (i j : nat) oi oj,
          w_orders w !! i = Some oi -> w_orders w !! j = Some oj ->
          Order.getId oi = Order.getId oj -> i = j).
Proof.
  intros heap evs w Hlen.
  assert (Hid : forall (i : nat) o,
             w_orders w !! i = Some o -> Order.getId o = Z.of_nat i + 1).
  { intros i o Hi. unfold Order.getId.
    rewrite (proj2 (run_order_ids heap evs) i o Hi).
    apply lookup_lt_Some in Hi.
    rewrite nth_order_id_small; lia. }
  split; [done|]. split; [exact Hid|]. split.
  - intros i j oi oj Hi Hj Hlt. rewrite (Hid _ _ Hi), (Hid _ _ Hj). lia.
  - intros i j oi oj Hi Hj Heq.
    rewrite (Hid _ _ Hi), (Hid _ _ Hj) in Heq. lia.
Qed.

(** Three orders constructed in a run, with cart operations in between,
    receive the identifiers 1, 2, 3. *)
Lemma order_ids_sequential_witness :
  let w := steps main_heap
             [CartEvent (ShoppingCart.OpPlusAssign (Some 1%positive));
              PlaceOrder 100;
              CartEvent (ShoppingCart.OpRemove 1 1);
              PlaceOrder 200;
              PlaceOrder 300] initial_world in
  (Order.getId <$> w_orders w) = [1; 2; 3]
  /\ (forall (i : nat) o,
        w_orders w !! i = Some o -> Order.getId o = Z.of_nat i + 1).
Proof.
  split; [vm_compute; reflexivity|].
  apply (order_ids_sequential main_heap
           [CartEvent (ShoppingCart.OpPlusAssign (Some 1%positive));
            PlaceOrder 100;
            CartEvent (ShoppingCart.OpRemove 1 1);
            PlaceOrder 200;
            PlaceOrder 300]).
  vm_compute. reflexivity.
Defined.

(** ** addProduct and removeProduct *)

(** C3 fails on the code where the sum of the quantities does not fit in
    a [size_t]: adding one unit of a product to a cart that holds
    [2^64 - 1] units of it leaves an entry of quantity 0, where the
    claim promises the held quantity incremented by 1. *)
Theorem addProduct_increment_wraps :
  forall (heap : Store) (l : loc),
    let k := Product.getId (heap l) in
    let items : ItemMap := {[k := (Some l, 2 ^ 64 - 1)]} in
    is_size (2 ^ 64 - 1) /\ is_size 1
    /\ ShoppingCart.addProduct heap (Some l) 1 items = {[k := (Some l, 0)]}
    /\ ShoppingCart.addProduct heap (Some l) 1 items
       <> {[k := (Some l, (2 ^ 64 - 1) + 1)]}.
Proof.
  intros heap l k items.
  assert (Hadd : ShoppingCart.addProduct heap (Some l) 1 items
                 = {[k := (Some l, 0)]}).
  { subst items k.
    rewrite (addProduct_held heap l 1 (Some l) (2 ^ 64 - 1));
      [|done|apply lookup_singleton_eq].
    by rewrite insert_singleton_eq. }
  split; [unfold is_size; lia|]. split; [unfold is_size; lia|].
  split; [exact Hadd|]. rewrite Hadd. intros Heq.
  apply (f_equal (fun m : ItemMap => m !! k)) in Heq.
  rewrite !lookup_singleton_eq in Heq. discriminate.
Qed.

(** C4: [removeProduct(id, qty)] leaves the cart as it is when it holds
    no entry for [id]; otherwise it deletes the entry when [qty] is at
    least the held quantity and decrements the held quantity by [qty]
    when [qty] is smaller, which leaves at least 1; the entries of other
    identifiers are untouched and no quantity becomes negative.  The
    function returns in every case: it has no failing path. *)
Theorem removeProduct_cases :
  forall (items : ItemMap) (id qty : Z),
    is_size qty ->
    map_Forall (fun _ e => is_size e.2) items ->
    let items' := ShoppingCart.removeProduct id qty items in
    (items !! id = None -> items' = items)
    /\ (forall p0 q0, items !! id = Some (p0, q0) -> q0 <= qty ->
          items' = delete id items /\ items' !! id = None)
    /\ (forall p0 q0, items !! id = Some (p0, q0) -> qty < q0 ->
          items' = <[id := (p0, q0 - qty)]> items /\ 1 <= q0 - qty)
    /\ (forall k, k <> id -> items' !! k = items !! k)
    /\ map_Forall (fun _ e => 0 <= e.2) items'.
Proof.
  intros items id qty [Hq0 Hq1] Hsizes items'. subst items'.
  assert (Hdec : forall p0 q0, items !! id = Some (p0, q0) -> qty < q0 ->
            ShoppingCart.removeProduct id qty items
            = <[id := (p0, q0 - qty)]> items).
  { intros p0 q0 Hk Hlt. rewrite (removeProduct_some id qty p0 q0 _ Hk Hlt).
    destruct (Hsizes _ _ Hk) as [_ Hq]; simpl in Hq.
    rewrite wrap64_small; [done | lia]. }
  repeat split.
  - apply removeProduct_absent.
  - by eapply removeProduct_all.
  - erewrite removeProduct_all by done. apply lookup_delete_eq.
  - by apply Hdec.
  - lia.
  - intros k Hne. unfold ShoppingCart.removeProduct.
    destruct (items !! id) as [[p0 q0]|] eqn:Hk; [|done].
    destruct (q0 <=? qty).
    + by rewrite lookup_delete_ne.
    + by rewrite lookup_insert_ne.
  - destruct (items !! id) as [[p0 q0]|] eqn:Hk.
    + destruct (Z.le_gt_cases q0 qty) as [Hle|Hlt].
      * rewrite (removeProduct_all id qty p0 q0 _ Hk Hle).
        apply map_Forall_delete. intros k e He.
        by destruct (Hsizes k e He).
      * rewrite (Hdec p0 q0 eq_refl Hlt).
        apply map_Forall_insert_2; [simpl; lia|].
        intros k e He. by destruct (Hsizes k e He).
    + rewrite (removeProduct_absent id qty _ Hk).
      intros k e He. by destruct (Hsizes k e He).
Qed.

Lemma cart_wf_sizes heap (items : ItemMap) :
  cart_wf heap items -> map_Forall (fun _ e => is_size e.2) items.
Proof. intros Hwf k e He. by destruct (Hwf k e He). Qed.

(** [add(p, 2); remove(p, 5)] on the empty cart: the entry is gone and
    the cart is empty again. *)
Lemma removeProduct_cases_witness :
  let items := ShoppingCart.addProduct main_heap (Some 2%positive) 2 ∅ in
  ShoppingCart.removeProduct 2 5 items = delete 2 items
  /\ ShoppingCart.removeProduct 2 5 items !! 2 = None
  /\ ShoppingCart.empty (ShoppingCart.removeProduct 2 5 items) = true.
Proof.
  cbv zeta.
  destruct (removeProduct_cases
              (ShoppingCart.addProduct main_heap (Some 2%positive) 2 ∅) 2 5)
    as (_ & Hall & _).
  - unfold is_size. lia.
  - apply (cart_wf_sizes main_heap). apply cart_wf_addProduct.
    + unfold is_size. lia.
    + apply cart_wf_empty.
  - destruct (Hall (Some 2%positive) 2) as [Hdel Hnone].
    + vm_compute. reflexivity.
    + lia.
    + split; [exact Hdel | split; [exact Hnone | vm_compute; reflexivity]].
Defined.

(** ** The cart invariant *)

(** What every reachable cart satisfies: each stored pointer is non-null
    and points to a product whose identifier is the entry's key, and each
    stored quantity is a [size_t] value. *)
Lemma reachable_entries (heap : Store) (items : ItemMap) k p qty :
  ShoppingCart.reachable heap items ->
  items !! k = Some (p, qty) ->
  0 <= qty < 2 ^ 64 /\ exists l, p = Some l /\ Product.getId (heap l) = k.
Proof.
  intros Hreach Hk. exact (reachable_cart_wf heap items Hreach k (p, qty) Hk).
Qed.

Lemma positive_addProduct heap p qty (items : ItemMap) :
  is_size qty -> add_fits heap p qty items ->
  map_Forall (fun _ e => 1 <= e.2) items ->
  map_Forall (fun _ e => 1 <= e.2)
             (ShoppingCart.addProduct heap p qty items).
Proof.
  intros [Hq0 Hq1] Hfit Hpos. destruct p as [l|]; [|done].
  destruct (decide (qty = 0)) as [->|Hne]; [by rewrite addProduct_zero|].
  destruct (items !! Product.getId (heap l)) as [[p0 q0]|] eqn:Hk.
  - pose proof (Hpos _ _ Hk) as Hq. simpl in Hq.
    pose proof (Hfit l p0 q0 eq_refl Hk) as Hlt.
    rewrite (addProduct_held_fits heap l qty p0 q0 _ Hne); [|lia|done].
    apply map_Forall_insert_2; [simpl; lia | done].
  - rewrite (addProduct_fresh heap l qty _ Hne Hk).
    apply map_Forall_insert_2; [simpl; lia | done].
Qed.

Lemma positive_removeProduct heap id qty (items : ItemMap) :
  is_size qty -> cart_wf heap items ->
  map_Forall (fun _ e => 1 <= e.2) items ->
  map_Forall (fun _ e => 1 <= e.2) (ShoppingCart.removeProduct id qty items).
Proof.
  intros [Hq0 Hq1] Hwf Hpos. unfold ShoppingCart.removeProduct.
  destruct (items !! id) as [[p0 q0]|] eqn:Hk; [|done].
  destruct (Z.leb_spec q0 qty) as [Hle|Hlt].
  - by apply map_Forall_delete.
  - apply map_Forall_insert_2; [|done]. simpl.
    destruct (Hwf _ _ Hk) as [[Hs0 Hs1] _]. simpl in Hs0, Hs1.
    rewrite wrap64_small; lia.
Qed.

Lemma fitting_reachable heap (items : ItemMap) :
  reachable_fitting heap items -> ShoppingCart.reachable heap items.
Proof. induction 1; by constructor. Qed.

(** In a run without overflow every held quantity is at least 1. *)
Lemma fitting_positive heap (items : ItemMap) :
  reachable_fitting heap items ->
  map_Forall (fun _ e => 1 <= e.2) items.
Proof.
  induction 1 as [|op items Hreach IH Hty Hfit]; [apply map_Forall_empty|].
  pose proof (reachable_cart_wf heap items (fitting_reachable _ _ Hreach))
    as Hwf.
  destruct op as [p qty|id qty| |p|p]; simpl in *.
  - by apply positive_addProduct.
  - destruct Hty. by apply (positive_removeProduct heap).
  - apply map_Forall_empty.
  - apply positive_addProduct; [unfold is_size; lia | done | done].
  - apply positive_addProduct; [unfold is_size; lia | done | done].
Qed.

(** C9 fails on the code: the empty cart, [addProduct(p, 2^64 - 1)] and
    then [addProduct(p, 1)], both with arguments of their C++ types,
    reach a cart whose entry for [p] holds quantity 0.  (The other half
    of the invariant, a non-null pointer to a product whose identifier
    is the key, holds in every reachable cart: [reachable_entries]; and
    quantities stay at least 1 in runs without overflow:
    [fitting_positive].) *)
Theorem quantity_zero_reachable :
  forall (heap : Store) (l : loc),
    let ops := [ShoppingCart.OpAdd (Some l) (2 ^ 64 - 1);
                ShoppingCart.OpAdd (Some l) 1] in
    let items := ShoppingCart.run heap ops ∅ in
    Forall ShoppingCart.well_typed ops
    /\ ShoppingCart.reachable heap items
    /\ items !! Product.getId (heap l) = Some (Some l, 0)
    /\ ~ map_Forall (fun _ e => 1 <= e.2) items.
Proof.
  intros heap l ops items.
  assert (Hty : Forall ShoppingCart.well_typed ops).
  { repeat constructor; unfold is_size; lia. }
  assert (Hk : items !! Product.getId (heap l) = Some (Some l, 0)).
  { subst items ops. unfold ShoppingCart.run.
    cbn [foldl ShoppingCart.exec].
    rewrite (addProduct_fresh heap l (2 ^ 64 - 1) ∅);
      [|done|apply lookup_empty].
    rewrite (addProduct_held heap l 1 (Some l) (2 ^ 64 - 1));
      [|done|apply lookup_insert_eq].
    apply lookup_insert_eq. }
  split; [exact Hty|]. split; [|split; [exact Hk|]].
  - apply reachable_run; [exact Hty | constructor].
  - intros Hpos. specialize (Hpos _ _ Hk). simpl in Hpos. lia.
Qed.

(** ** Two objects with one identifier *)

(** The loop reads the store only at the locations the entries hold. *)
Lemma total_over_store_ext (heap heap' : Store) (es : list (Z * entry)) :
  Forall (fun kv => forall l, kv.2.1 = Some l -> heap' l = heap l) es ->
  ShoppingCart.total_over heap' es = ShoppingCart.total_over heap es.
Proof.
  unfold ShoppingCart.total_over. generalize (Some 0%float).
  intros acc Hes. revert acc.
  induction Hes as [|[k [p qty]] es Hkv _ IH]; intros acc; [done|].
  cbn [foldl]. rewrite IH. f_equal.
  destruct acc as [sum|]; [|done]. simpl.
  unfold ShoppingCart.total_step. simpl in *.
  destruct p as [l|]; [|done]. by rewrite (Hkv l eq_refl).
Qed.

(** C10 as stated fails in two ways.  In a cart that already holds the
    identifier (here one apple, the object at location 2),
    [addProduct(laptop, 1); addProduct(apple, 2)] leaves the quantity at
    4, not 3, with the apple as the stored product, and the total is
    four apples.  On the empty cart, [addProduct(laptop, 0)] does
    nothing, so [addProduct(apple, 2)] stores the apple, the second
    object, and the total is two apples. *)
Lemma same_identity_counterexample :
  let held := ShoppingCart.run twin_heap
                [ShoppingCart.OpAdd (Some 2%positive) 1] ∅ in
  let items1 := ShoppingCart.addProduct twin_heap (Some 2%positive) 2
                  (ShoppingCart.addProduct twin_heap (Some 1%positive) 1 held) in
  let items2 := ShoppingCart.addProduct twin_heap (Some 2%positive) 2
                  (ShoppingCart.addProduct twin_heap (Some 1%positive) 0 ∅) in
  Product.getId (twin_heap 1%positive) = Product.getId (twin_heap 2%positive)
  /\ twin_heap 1%positive <> twin_heap 2%positive
  /\ items1 !! 7 = Some (Some 2%positive, 4)
  /\ items1 !! 7 <> Some (Some 1%positive, 1 + 2)
  /\ ShoppingCart.total twin_heap items1 = Some 8%float
  /\ items2 !! 7 = Some (Some 2%positive, 2)
  /\ items2 !! 7 <> Some (Some 1%positive, 0 + 2)
  /\ ShoppingCart.total twin_heap items2 = Some 4%float.
Proof.
  cbv zeta. repeat split; try (vm_compute; reflexivity);
    vm_compute; discriminate.
Qed.

(** C10, amended: in a reachable cart that holds no entry for the
    identifier two distinct objects [p1] and [p2] share, with [q1 >= 1]
    and [q1 + q2] a [size_t] value, [addProduct(p1, q1)] followed by
    [addProduct(p2, q2)] leaves a single entry for that identifier, with
    quantity [q1 + q2] and [p1] as the stored product, and the other
    entries as they were; the resulting cart and its total are the same
    whatever name, price, SKU and class the object [p2] has. *)
Theorem same_identity_keeps_first :
  forall (heap : Store) (items : ItemMap) (l1 l2 : loc) (q1 q2 : Z),
    l1 <> l2 ->
    Product.getId (heap l1) = Product.getId (heap l2) ->
    ShoppingCart.reachable heap items ->
    items !! Product.getId (heap l1) = None ->
    1 <= q1 -> 0 <= q2 -> q1 + q2 < 2 ^ 64 ->
    let k := Product.getId (heap l1) in
    let items' := ShoppingCart.addProduct heap (Some l2) q2
                    (ShoppingCart.addProduct heap (Some l1) q1 items) in
    items' = <[k := (Some l1, q1 + q2)]> items
    /\ items' !! k = Some (Some l1, q1 + q2)
    /\ size items' = S (size items)
    /\ forall heap' : Store,
         (forall l, l <> l2 -> heap' l = heap l) ->
         Product.getId (heap' l2) = Product.getId (heap l2) ->
         ShoppingCart.addProduct heap' (Some l2) q2
           (ShoppingCart.addProduct heap' (Some l1) q1 items) = items'
         /\ forall es, ShoppingCart.enumerates es items' ->
                       ShoppingCart.total_over heap' es
                       = ShoppingCart.total_over heap es.
Proof.
  intros heap items l1 l2 q1 q2 Hne Hid Hreach Hfresh Hq1 Hq2 Hfit k items'.
  assert (Hadd : forall h : Store,
             Product.getId (h l1) = k -> Product.getId (h l2) = k ->
             ShoppingCart.addProduct h (Some l2) q2
               (ShoppingCart.addProduct h (Some l1) q1 items)
             = <[k := (Some l1, q1 + q2)]> items).
  { intros h H1 H2.
    rewrite (addProduct_fresh h l1 q1 items); [|lia|by rewrite H1].
    rewrite H1. destruct (decide (q2 = 0)) as [->|Hq2ne].
    - rewrite addProduct_zero. by rewrite Z.add_0_r.
    - rewrite (addProduct_held_fits h l2 q2 (Some l1) q1);
        [|done|lia|rewrite H2; apply lookup_insert_eq].
      rewrite H2. apply insert_insert_eq. }
  assert (Hitems' : items' = <[k := (Some l1, q1 + q2)]> items).
  { subst items'. by apply Hadd. }
  split; [exact Hitems'|]. split; [rewrite Hitems'; apply lookup_insert_eq|].
  split; [rewrite Hitems'; by apply map_size_insert_None|].
  intros heap' Hsame Hid'. split.
  - rewrite Hitems'. apply Hadd.
    + rewrite Hsame; done.
    + rewrite Hid'. done.
  - intros es Hes. apply total_over_store_ext.
    apply Forall_forall. intros [k' [p qty]] Hin l Hl. simpl in Hl. subst p.
    apply Hsame. intros ->.
    unfold ShoppingCart.enumerates in Hes. rewrite Hes in Hin.
    apply elem_of_map_to_list in Hin. rewrite Hitems' in Hin.
    destruct (decide (k' = k)) as [->|Hk'].
    + rewrite lookup_insert_eq in Hin. congruence.
    + rewrite lookup_insert_ne in Hin by done.
      destruct (reachable_entries heap items k' _ _ Hreach Hin)
        as [_ (l & Hl & Hlk)].
      injection Hl as <-. apply Hk'. by rewrite <- Hlk, <- Hid.
Qed.

(** On the empty cart, [addProduct(laptop, 1); addProduct(apple, 2)]
    leaves three laptops. *)
Lemma same_identity_keeps_first_witness :
  let items' := ShoppingCart.addProduct twin_heap (Some 2%positive) 2
                  (ShoppingCart.addProduct twin_heap (Some 1%positive) 1 ∅) in
  items' !! 7 = Some (Some 1%positive, 3)
  /\ ShoppingCart.total twin_heap items' = Some 2700%float.
Proof.
  cbv zeta. split; [|vm_compute; reflexivity].
  apply (same_identity_keeps_first twin_heap ∅ 1%positive 2%positive 1 2).
  - discriminate.
  - reflexivity.
  - constructor.
  - apply lookup_empty.
  - lia.
  - lia.
  - lia.
Defined.

(** * Further properties of the code *)

(** ** Each cart operation acts on one entry *)

Section LocalAction.
Variable heap : Store.

Lemma addProduct_partial_alter l qty (items : ItemMap) :
  qty <> 0 ->
  ShoppingCart.addProduct heap (Some l) qty items
  = partial_alter (add_effect l qty) (Product.getId (heap l)) items.
Proof.
  intros Hq. destruct (items !! Product.getId (heap l)) as [[p0 q0]|] eqn:Hk.
  - rewrite (addProduct_held heap l qty p0 q0 items Hq Hk).
    apply partial_alter_ext. intros x Hx. rewrite Hk in Hx. by subst x.
  - rewrite (addProduct_fresh heap l qty items Hq Hk).
    apply partial_alter_ext. intros x Hx. rewrite Hk in Hx. by subst x.
Qed.

Lemma removeProduct_partial_alter id qty (items : ItemMap) :
  ShoppingCart.removeProduct id qty items
  = partial_alter (remove_effect qty) id items.
Proof.
  unfold ShoppingCart.removeProduct.
  destruct (items !! id) as [[p0 q0]|] eqn:Hk.
  - destruct (q0 <=? qty) eqn:Hle.
    + apply partial_alter_ext. intros x Hx. rewrite Hk in Hx. subst x.
      simpl. by rewrite Hle.
    + apply partial_alter_ext. intros x Hx. rewrite Hk in Hx. subst x.
      simpl. by rewrite Hle.
  - symmetry. apply partial_alter_id. by rewrite Hk.
Qed.

Lemma partial_alter_swap (f g : option entry -> option entry) i j
    (items : ItemMap) :
  i <> j ->
  partial_alter f i (partial_alter g j items)
  = partial_alter g j (partial_alter f i items).
Proof.
  intros Hne. rewrite partial_alter_partial_alter.
  by rewrite decide_False.
Qed.

Lemma addProduct_lookup_ne p qty k (items : ItemMap) :
  (forall l, p = Some l -> Product.getId (heap l) <> k) ->
  ShoppingCart.addProduct heap p qty items !! k = items !! k.
Proof.
  intros Hk. destruct p as [l|]; [|done].
  destruct (decide (qty = 0)) as [->|Hq]; [by rewrite addProduct_zero|].
  rewrite addProduct_partial_alter by done.
  apply lookup_partial_alter_ne. by apply Hk.
Qed.

Lemma removeProduct_lookup_ne id qty k (items : ItemMap) :
  id <> k -> ShoppingCart.removeProduct id qty items !! k = items !! k.
Proof.
  intros Hne. rewrite removeProduct_partial_alter.
  by apply lookup_partial_alter_ne.
Qed.
End LocalAction.

(** The cart of [main] is reached without overflow. *)
Lemma main_cart_fitting : reachable_fitting main_heap main_cart.
Proof.
  unfold main_cart, ShoppingCart.run. cbn [foldl].
  repeat (apply fitting_exec; [| exact I |
    intros l p0 q0 Hl Hk; injection Hl as <-; vm_compute in Hk;
    discriminate ]).
  apply fitting_empty.
Qed.

(** ** Invariants of the cart *)

(** X1: in every cart reached from the empty cart by [addProduct],
    [removeProduct], [clear], [+=] and [+], each entry stores a non-null
    pointer to a product whose identifier is the entry's key, and a
    quantity that is a [size_t] value. *)
Theorem cart_entries_match_their_key :
  forall (heap : Store) (items : ItemMap) k p qty,
    ShoppingCart.reachable heap items ->
    items !! k = Some (p, qty) ->
    (exists l, p = Some l /\ Product.getId (heap l) = k)
    /\ 0 <= qty < 2 ^ 64.
Proof.
  intros heap items k p qty Hreach Hk.
  destruct (reachable_cart_wf heap items Hreach k (p, qty) Hk) as [Hq Hp].
  split; [exact Hp | exact Hq].
Qed.

Lemma cart_entries_match_their_key_witness :
  main_cart !! 2 = Some (Some 2%positive, 1)
  /\ (exists l, Some 2%positive = Some l /\ Product.getId (main_heap l) = 2)
  /\ 0 <= 1 < 2 ^ 64.
Proof.
  split; [vm_compute; reflexivity|].
  apply (cart_entries_match_their_key main_heap main_cart 2 (Some 2%positive) 1).
  - apply fitting_reachable, main_cart_fitting.
  - vm_compute. reflexivity.
Defined.

(** X2: in a run in which no [addProduct] overflows the quantity it
    increments, every entry of the cart holds a quantity of at least 1:
    [addProduct] ignores quantity 0 and [removeProduct] erases an entry
    instead of leaving it at 0. *)
Theorem quantities_positive_without_overflow :
  forall (heap : Store) (items : ItemMap) k p qty,
    reachable_fitting heap items ->
    items !! k = Some (p, qty) ->
    1 <= qty.
Proof.
  intros heap items k p qty Hreach Hk.
  exact (fitting_positive heap items Hreach k (p, qty) Hk).
Qed.

Lemma quantities_positive_without_overflow_witness :
  main_cart !! 3 = Some (Some 3%positive, 1) /\ 1 <= 1.
Proof.
  split; [vm_compute; reflexivity|].
  apply (quantities_positive_without_overflow
           main_heap main_cart 3 (Some 3%positive) 1).
  - apply main_cart_fitting.
  - vm_compute. reflexivity.
Defined.

(** ** How the cart operations compose *)

(** X3: in a cart reached without overflow, [addProduct(p, q)] followed
    by [removeProduct(p->getId(), q)] gives the cart back as it was,
    whether or not it held the product before, provided the increment
    does not overflow. *)
Theorem add_then_remove_restores :
  forall (heap : Store) (items : ItemMap) (l : loc) (q : Z),
    reachable_fitting heap items ->
    is_size q ->
    add_fits heap (Some l) q items ->
    ShoppingCart.removeProduct (Product.getId (heap l)) q
      (ShoppingCart.addProduct heap (Some l) q items)
    = items.
Proof.
  intros heap items l q Hreach [Hq0 Hq1] Hfit.
  pose proof (reachable_cart_wf heap items (fitting_reachable _ _ Hreach))
    as Hwf.
  pose proof (fitting_positive heap items Hreach) as Hpos.
  set (k := Product.getId (heap l)).
  destruct (items !! k) as [[p0 q0]|] eqn:Hk.
  - pose proof (Hpos _ _ Hk) as Hq. simpl in Hq.
    destruct (Hwf _ _ Hk) as [[_ Hs] _]. simpl in Hs.
    pose proof (Hfit l p0 q0 eq_refl Hk) as Hlt.
    destruct (decide (q = 0)) as [->|Hne].
    + rewrite addProduct_zero.
      rewrite (removeProduct_some k 0 p0 q0 items Hk); [|lia].
      rewrite wrap64_small, Z.sub_0_r by lia. by apply insert_id.
    + rewrite (addProduct_held_fits heap l q p0 q0 items Hne); [|lia|done].
      fold k.
      rewrite (removeProduct_some k q p0 (q0 + q));
        [|apply lookup_insert_eq|lia].
      rewrite insert_insert_eq, wrap64_small by lia.
      replace (q0 + q - q) with q0 by lia. by apply insert_id.
  - destruct (decide (q = 0)) as [->|Hne].
    + rewrite addProduct_zero. by apply removeProduct_absent.
    + rewrite (addProduct_fresh heap l q items Hne Hk). fold k.
      rewrite (removeProduct_all k q (Some l) q);
        [|apply lookup_insert_eq|lia].
      by apply delete_insert_id.
Qed.

(** Two more jackets into the cart of [main] and out again. *)
Lemma add_then_remove_restores_witness :
  ShoppingCart.removeProduct 2 2
    (ShoppingCart.addProduct main_heap (Some 2%positive) 2 main_cart)
  = main_cart.
Proof.
  apply (add_then_remove_restores main_heap main_cart 2%positive 2).
  - apply main_cart_fitting.
  - unfold is_size. lia.
  - intros l p0 q0 Hl Hk. injection Hl as <-. vm_compute in Hk.
    injection Hk as <- <-. lia.
Defined.

(** X4: adding a product in two steps is adding it once:
    [addProduct(p, a); addProduct(p, b)] leaves the cart that
    [addProduct(p, a + b)] leaves, for every cart (also when the held
    quantity wraps around), every [p] (also null) and all [a], [b] whose
    sum is a [size_t] value. *)
Theorem add_twice_is_add_sum :
  forall (heap : Store) (items : ItemMap) (p : ptr) (a b : Z),
    0 <= a -> 0 <= b -> a + b < 2 ^ 64 ->
    ShoppingCart.addProduct heap p b (ShoppingCart.addProduct heap p a items)
    = ShoppingCart.addProduct heap p (a + b) items.
Proof.
  intros heap items p a b Ha Hb Hab. destruct p as [l|]; [|done].
  destruct (decide (a = 0)) as [->|Hane]; [by rewrite addProduct_zero|].
  destruct (decide (b = 0)) as [->|Hbne].
  { by rewrite addProduct_zero, Z.add_0_r. }
  set (k := Product.getId (heap l)).
  destruct (items !! k) as [[p0 q0]|] eqn:Hk.
  - rewrite (addProduct_held heap l a p0 q0 items Hane Hk). fold k.
    rewrite (addProduct_held heap l b p0 (wrap64 (q0 + a)));
      [|done|apply lookup_insert_eq].
    rewrite (addProduct_held heap l (a + b) p0 q0 items); [|lia|done].
    fold k. rewrite insert_insert_eq. do 2 f_equal. unfold wrap64.
    rewrite Zplus_mod_idemp_l. f_equal. lia.
  - rewrite (addProduct_fresh heap l a items Hane Hk). fold k.
    rewrite (addProduct_held heap l b (Some l) a);
      [|done|apply lookup_insert_eq].
    rewrite (addProduct_fresh heap l (a + b) items); [|lia|done].
    fold k. rewrite insert_insert_eq, wrap64_small by lia. done.
Qed.

Lemma add_twice_is_add_sum_witness :
  ShoppingCart.addProduct main_heap (Some 1%positive) 2
    (ShoppingCart.addProduct main_heap (Some 1%positive) 1 ∅)
  = ShoppingCart.addProduct main_heap (Some 1%positive) (1 + 2) ∅.
Proof.
  apply (add_twice_is_add_sum main_heap ∅ (Some 1%positive) 1 2); lia.
Defined.

(** X5: operations on two products with different identifiers commute:
    two [addProduct], an [addProduct] and a [removeProduct], and two
    [removeProduct] give the same cart in either order, for every cart
    and all quantities. *)
Theorem distinct_identifiers_commute :
  forall (heap : Store) (items : ItemMap) (l1 l2 : loc) (q1 q2 : Z),
    Product.getId (heap l1) <> Product.getId (heap l2) ->
    let k1 := Product.getId (heap l1) in
    let k2 := Product.getId (heap l2) in
    ShoppingCart.addProduct heap (Some l1) q1
      (ShoppingCart.addProduct heap (Some l2) q2 items)
    = ShoppingCart.addProduct heap (Some l2) q2
        (ShoppingCart.addProduct heap (Some l1) q1 items)
    /\ ShoppingCart.removeProduct k1 q1
         (ShoppingCart.addProduct heap (Some l2) q2 items)
       = ShoppingCart.addProduct heap (Some l2) q2
           (ShoppingCart.removeProduct k1 q1 items)
    /\ ShoppingCart.removeProduct k1 q1
         (ShoppingCart.removeProduct k2 q2 items)
       = ShoppingCart.removeProduct k2 q2
           (ShoppingCart.removeProduct k1 q1 items).
Proof.
  intros heap items l1 l2 q1 q2 Hne k1 k2. repeat split.
  - destruct (decide (q1 = 0)) as [->|H1]; [by rewrite !addProduct_zero|].
    destruct (decide (q2 = 0)) as [->|H2]; [by rewrite !addProduct_zero|].
    rewrite !addProduct_partial_alter by done.
    by apply partial_alter_swap.
  - destruct (decide (q2 = 0)) as [->|H2]; [by rewrite !addProduct_zero|].
    rewrite !addProduct_partial_alter, !removeProduct_partial_alter by done.
    by apply partial_alter_swap.
  - rewrite !removeProduct_partial_alter. by apply partial_alter_swap.
Qed.

Lemma distinct_identifiers_commute_witness :
  ShoppingCart.addProduct main_heap (Some 1%positive) 4
    (ShoppingCart.addProduct main_heap (Some 2%positive) 5 main_cart)
  = ShoppingCart.addProduct main_heap (Some 2%positive) 5
      (ShoppingCart.addProduct main_heap (Some 1%positive) 4 main_cart).
Proof.
  apply (distinct_identifiers_commute
           main_heap main_cart 1%positive 2%positive 4 5).
  vm_compute. discriminate.
Defined.

(** Unit increments of a held entry, as long as they fit. *)
Lemma run_replicate_held heap (op : ShoppingCart.CartOp) l :
  (forall c : ItemMap,
     ShoppingCart.exec heap op c = ShoppingCart.addProduct heap (Some l) 1 c) ->
  forall (n : nat) (items : ItemMap) p0 q,
    items !! Product.getId (heap l) = Some (p0, q) ->
    0 <= q -> q + Z.of_nat n < 2 ^ 64 ->
    ShoppingCart.run heap (replicate n op) items
    = <[Product.getId (heap l) := (p0, q + Z.of_nat n)]> items.
Proof.
  intros Hop. induction n as [|n IH]; intros items p0 q Hk Hq Hfit.
  - simpl. rewrite Z.add_0_r. symmetry. by apply insert_id.
  - unfold ShoppingCart.run in *. cbn [replicate foldl]. rewrite Hop.
    rewrite (addProduct_held_fits heap l 1 p0 q items); [|done|lia|done].
    rewrite (IH _ p0 (q + 1)); [|apply lookup_insert_eq|lia|lia].
    rewrite insert_insert_eq. do 2 f_equal. lia.
Qed.

(** X8: on a cart that does not hold the product's identifier, [n]
    applications of [cart += p], or of [cart = cart + p], with
    [1 <= n < 2^64], leave one new entry, which stores [p] with quantity
    [n], and the other entries as they were. *)
Theorem plus_assign_n_times :
  forall (heap : Store) (items : ItemMap) (l : loc) (n : nat),
    items !! Product.getId (heap l) = None ->
    (1 <= n)%nat -> Z.of_nat n < 2 ^ 64 ->
    ShoppingCart.run heap (replicate n (ShoppingCart.OpPlusAssign (Some l)))
      items
    = <[Product.getId (heap l) := (Some l, Z.of_nat n)]> items
    /\ ShoppingCart.run heap (replicate n (ShoppingCart.OpPlus (Some l)))
         items
       = <[Product.getId (heap l) := (Some l, Z.of_nat n)]> items.
Proof.
  intros heap items l n Hk Hn Hfit.
  destruct n as [|n]; [lia|].
  assert (Hgen : forall op,
    (forall c : ItemMap,
       ShoppingCart.exec heap op c
       = ShoppingCart.addProduct heap (Some l) 1 c) ->
    ShoppingCart.run heap (replicate (S n) op) items
    = <[Product.getId (heap l) := (Some l, Z.of_nat (S n))]> items).
  { intros op Hop.
    change (ShoppingCart.run heap (replicate (S n) op) items)
      with (ShoppingCart.run heap (replicate n op)
              (ShoppingCart.exec heap op items)).
    rewrite Hop, (addProduct_fresh heap l 1 items) by done.
    rewrite (run_replicate_held heap op l Hop n _ (Some l) 1);
      [|apply lookup_insert_eq|lia|lia].
    rewrite insert_insert_eq. do 2 f_equal. lia. }
  split; apply Hgen; reflexivity.
Qed.

Lemma plus_assign_n_times_witness :
  ShoppingCart.run main_heap
    (replicate 3 (ShoppingCart.OpPlusAssign (Some 1%positive))) ∅
  = <[1 := (Some 1%positive, 3)]> ∅.
Proof.
  apply (plus_assign_n_times main_heap ∅ 1%positive 3).
  - apply lookup_empty.
  - lia.
  - reflexivity.
Defined.

(** X10: no cart operation swaps the product object stored under an
    identifier: when an identifier is held before and after an
    [addProduct], [removeProduct], [clear], [+=] or [+], its entry
    stores the same pointer as before, whatever product the operation
    was given. *)
Theorem operations_keep_stored_product :
  forall (heap : Store) (op : ShoppingCart.CartOp) (items : ItemMap)
         k p0 q0 p1 q1,
    items !! k = Some (p0, q0) ->
    ShoppingCart.exec heap op items !! k = Some (p1, q1) ->
    p1 = p0.
Proof.
  intros heap op items k p0 q0 p1 q1 Hk Hk'.
  assert (Hadd : forall p qty,
            ShoppingCart.addProduct heap p qty items !! k = Some (p1, q1) ->
            p1 = p0).
  { intros [l|] qty Ha; [|rewrite addProduct_null in Ha; congruence].
    destruct (decide (qty = 0)) as [->|Hq];
      [rewrite addProduct_zero in Ha; congruence|].
    destruct (decide (Product.getId (heap l) = k)) as [Hl|Hl].
    - rewrite (addProduct_held heap l qty p0 q0 items Hq) in Ha
        by (by rewrite Hl).
      rewrite Hl, lookup_insert_eq in Ha. congruence.
    - rewrite addProduct_lookup_ne in Ha; [congruence|].
      intros l' Hl'. by injection Hl' as <-. }
  destruct op as [p qty|id qty| |p|p]; simpl in Hk'.
  - by apply (Hadd p qty).
  - destruct (decide (id = k)) as [->|Hid].
    + unfold ShoppingCart.removeProduct in Hk'. rewrite Hk in Hk'.
      destruct (q0 <=? qty).
      * rewrite lookup_delete_eq in Hk'. discriminate.
      * rewrite lookup_insert_eq in Hk'. congruence.
    + rewrite removeProduct_lookup_ne in Hk' by done. congruence.
  - unfold ShoppingCart.clear in Hk'. rewrite lookup_empty in Hk'.
    discriminate.
  - by apply (Hadd p 1).
  - by apply (Hadd p 1).
Qed.

(** The cart holds the apple; adding laptops, which carry the same
    identifier, raises the quantity and leaves the apple stored. *)
Lemma operations_keep_stored_product_witness :
  let items := ShoppingCart.addProduct twin_heap (Some 2%positive) 1 ∅ in
  ShoppingCart.exec twin_heap (ShoppingCart.OpAdd (Some 1%positive) 3) items
    !! 7 = Some (Some 2%positive, 4)
  /\ Some 2%positive = Some 2%positive.
Proof.
  cbv zeta. split; [vm_compute; reflexivity|].
  apply (operations_keep_stored_product twin_heap
           (ShoppingCart.OpAdd (Some 1%positive) 3)
           (ShoppingCart.addProduct twin_heap (Some 2%positive) 1 ∅)
           7 (Some 2%positive) 1 (Some 2%positive) 4).
  - vm_compute. reflexivity.
  - vm_compute. reflexivity.
Defined.

(** ** Orders *)

Lemma spec_total_finalPrice (held : list (Product.t * Z)) :
  spec_total held
  = foldl (fun sum e => (sum + finalPrice e.1 * size_to_double e.2)%float)
          0%float held.
Proof.
  unfold spec_total. generalize 0%float.
  induction held as [|e held IH]; intros a; [done|].
  cbn [foldl]. by rewrite IH, discounted_or_base_finalPrice.
Qed.

(** X6: for an order constructed from any reachable cart,
    [Order::total()] dereferences no null pointer and returns the sum,
    over the order's entries in iteration order, of the product's
    [finalPrice()] times the quantity: the value the loop of
    [ShoppingCart::total()] returns over the same sequence of entries. *)
Theorem order_total_is_sum :
  forall (heap : Store) (items : ItemMap) (now nextOrderId : Z)
         (es : list (Z * entry)),
    ShoppingCart.reachable heap items ->
    es ≡ₚ map_to_list (Order.items (new_Order items now nextOrderId).1) ->
    Order.total_over heap es
    = Some (foldl (fun sum e =>
                     (sum + finalPrice e.1 * size_to_double e.2)%float)
                  0%float (held_entries heap es))
    /\ length (held_entries heap es) = size items
    /\ Order.total_over heap es = ShoppingCart.total_over heap es.
Proof.
  intros heap items now n es Hreach Hes. cbn in Hes.
  unfold ShoppingCart.itemsSnapshot in Hes.
  pose proof (enumeration_nonnull heap items es
                (reachable_cart_wf heap items Hreach) Hes) as Hnn.
  destruct (total_loop_from heap es 0%float Hnn) as [Hsum Hlen].
  rewrite Order_total_over_eq. unfold ShoppingCart.total_over.
  rewrite Hsum. fold (spec_total (held_entries heap es)).
  rewrite spec_total_finalPrice. repeat split.
  rewrite Hlen, Hes. apply length_map_to_list.
Qed.

(** The order of [main]: 629.991 + 237.5 + 3.49. *)
Lemma order_total_is_sum_witness :
  Order.total main_heap (new_Order main_cart 0 nextOrderId_init).1
  = Some 870.98099999999999%float.
Proof.
  destruct (order_total_is_sum main_heap main_cart 0 nextOrderId_init
              (map_to_list main_cart)) as [Hsum _].
  - apply fitting_reachable, main_cart_fitting.
  - reflexivity.
  - unfold Order.total. cbn [new_Order fst Order.items].
    unfold ShoppingCart.itemsSnapshot. rewrite Hsum.
    vm_compute. reflexivity.
Defined.

(** X7: [pay()], [ship()] and [cancel()] are not guarded by the current
    status: after any sequence of such calls the status is the one the
    last call sets (also [cancel()] after [ship()], or [pay()] twice),
    and the identifier, the item map, the creation time and the total
    of the order are what they were. *)
Theorem status_calls_last_wins :
  forall (o : Order.t) (cs : list StatusCall) (c : StatusCall),
    let o' := calls (cs ++ [c]) o in
    Order.status o'
    = match c with
      | CallPay => Paid | CallShip => Shipped | CallCancel => Cancelled
      end
    /\ Order.statusString o'
       = match c with
         | CallPay => "Paid" | CallShip => "Shipped" | CallCancel => "Cancelled"
         end
    /\ Order.getId o' = Order.getId o
    /\ Order.items o' = Order.items o
    /\ Order.created_at o' = Order.created_at o
    /\ forall heap, Order.total heap o' = Order.total heap o.
Proof.
  intros o cs c o'.
  assert (Hframe : forall cs o,
            Order.order_id (calls cs o) = Order.order_id o
            /\ Order.items (calls cs o) = Order.items o
            /\ Order.created_at (calls cs o) = Order.created_at o).
  { clear. induction cs as [|c cs IH]; intros o; [done|].
    unfold calls in *. cbn [foldl].
    destruct (IH (call c o)) as (-> & -> & ->). by destruct c. }
  destruct (Hframe (cs ++ [c])%list o) as (Hid & Hitems & Hat).
  subst o'. unfold calls in *. rewrite foldl_snoc in *.
  repeat split; try done.
  - by destruct c.
  - by destruct c.
  - intros heap. unfold Order.total. by rewrite Hitems.
Qed.

(** ** The catalog *)

(** X9: a catalog keeps every item it is given, in the order given:
    after [add] of the items [xs] one by one, [getItems()] is the old
    sequence followed by [xs] and [size()] has grown by their number.
    Nothing is merged or refused: a product added twice is held twice,
    and a null pointer is held as well. *)
Theorem catalog_keeps_every_item :
  forall (c : GenericCatalog.t) (xs : list ptr),
    let c' := foldl (fun c x => GenericCatalog.add x c) c xs in
    GenericCatalog.getItems c' = (GenericCatalog.getItems c ++ xs)%list
    /\ GenericCatalog.size c'
       = GenericCatalog.size c + Z.of_nat (length xs).
Proof.
  intros c xs. cbv zeta. revert c.
  induction xs as [|x xs IH]; intros c.
  - cbn [foldl length]. rewrite app_nil_r. split; [done | lia].
  - cbn [foldl]. destruct (IH (GenericCatalog.add x c)) as [-> ->].
    unfold GenericCatalog.getItems, GenericCatalog.size, GenericCatalog.add.
    rewrite <- app_assoc, length_app. cbn [length app]. split; [done | lia].
Qed.

(** ** Removing in steps *)

(** X11: removing a product in two steps is removing it once:
    [removeProduct(id, a); removeProduct(id, b)] leaves the cart that
    [removeProduct(id, a + b)] leaves (the entry is erased as soon as
    the removed units reach the held quantity), for every cart whose
    quantities are [size_t] values and all [a], [b] that are not
    negative. *)
Theorem remove_twice_is_remove_sum :
  forall (items : ItemMap) (id a b : Z),
    map_Forall (fun _ e => is_size e.2) items ->
    0 <= a -> 0 <= b ->
    ShoppingCart.removeProduct id b (ShoppingCart.removeProduct id a items)
    = ShoppingCart.removeProduct id (a + b) items.
Proof.
  intros items id a b Hsizes Ha Hb.
  destruct (items !! id) as [[p0 q0]|] eqn:Hk.
  - destruct (Hsizes _ _ Hk) as [Hq0 Hq1]. simpl in Hq0, Hq1.
    destruct (Z.le_gt_cases q0 a) as [Hle|Hlt].
    + rewrite (removeProduct_all id a p0 q0 items Hk Hle).
      rewrite (removeProduct_absent id b) by apply lookup_delete_eq.
      rewrite (removeProduct_all id (a + b) p0 q0 items Hk); [done | lia].
    + rewrite (removeProduct_some id a p0 q0 items Hk Hlt).
      rewrite (wrap64_small (q0 - a)) by lia.
      destruct (Z.le_gt_cases (q0 - a) b) as [Hle'|Hlt'].
      * rewrite (removeProduct_all id b p0 (q0 - a));
          [|apply lookup_insert_eq|done].
        rewrite delete_insert_eq.
        rewrite (removeProduct_all id (a + b) p0 q0 items Hk); [done | lia].
      * rewrite (removeProduct_some id b p0 (q0 - a));
          [|apply lookup_insert_eq|done].
        rewrite insert_insert_eq.
        rewrite (removeProduct_some id (a + b) p0 q0 items Hk); [|lia].
        do 3 f_equal. lia.
  - rewrite (removeProduct_absent id a items Hk).
    by rewrite !(removeProduct_absent id _ items Hk).
Qed.

(** Five smartphones held: one unit and then two units removed, or
    three at once. *)
Lemma remove_twice_is_remove_sum_witness :
  let items := ShoppingCart.addProduct main_heap (Some 1%positive) 5 ∅ in
  ShoppingCart.removeProduct 1 2 (ShoppingCart.removeProduct 1 1 items)
  = ShoppingCart.removeProduct 1 (1 + 2) items.
Proof.
  cbv zeta.
  apply (remove_twice_is_remove_sum
           (ShoppingCart.addProduct main_heap (Some 1%positive) 5 ∅) 1 1 2).
  - apply (cart_wf_sizes main_heap). apply cart_wf_addProduct.
    + unfold is_size. lia.
    + apply cart_wf_empty.
  - lia.
  - lia.
Defined.
